(** * libzypp resolvable filters: a shallow embedding

    The development follows three translation units of the library:

    - [zypp/Resolvable.cc]: the handle class [Resolvable], which forwards
      its four identity accessors to a heap allocated implementation
      object, and its stream output operator;
    - [zypp/ResFilters.h]: the filter functors of namespace [resfilter];
    - [zypp/SrcPackage.cc]: the source package resolvable, whose
      constructor reads its kind tag from [ResTraits].

    Functors are records holding the constructor arguments; their
    [operator()] is the function [call] of the functor's module.  Code
    that dereferences a pointer runs in the monad [M]: it reads a memory
    and either returns a value together with the memory it leaves behind,
    or faults. *)

From stdpp Require Import base option gmap strings.

Set Default Proof Using "Type".

(** ** Vocabulary the three files consume but do not declare *)

Module CapMatch.
(** Modelled from the spec: the header [zypp/CapMatch.h] is not part of
    the sources at hand.  The capability index "must guarantee each
    pair's capability answers a three-valued match query
    (yes/maybe/no)". *)
Inductive t : Set := yes | no | maybe.

(** [operator==] on match results. *)
#[global] Instance CapMatch_eq_dec : EqDecision t.
Proof. solve_decision. Defined.
End CapMatch.

Module ResStatus.
(** Modelled from the spec: [zypp/ResStatus.h] is not part of the
    sources at hand.  A pool entry carries the "mutable status flags
    isInstalled, isUninstalled, isLocked, transacts"; the filters only
    call these four queries. *)
Record t := Build
  { isInstalled : bool;
    isUninstalled : bool;
    transacts : bool;
    isLocked : bool }.
End ResStatus.

(** Equality comparison of an attribute type, the relation behind the
    comparator [CompareByEQ]. *)
Class Equals (T : Type) := equals : T → T → bool.

(** The types and operations declared in headers outside the three files.
    They are parameters of the whole development. *)
Class Externals := {
(** [ResObject::Kind] (alias [ResKind]) and its [operator==]. *)
Kind : Type;
Kind_eq_dec :: EqDecision Kind;
Kind_asString : Kind → string;
(** [Edition] (alias [ResEdition]). *)
Edition : Type;
Edition_equals :: Equals Edition;
Edition_asString : Edition → string;
(** [Arch] (alias [ResArch]). *)
Arch : Type;
Arch_equals :: Equals Arch;
Arch_asString : Arch → string;
(** [Capability] and its member [matches]. *)
Capability : Type;
Capability_matches : Capability → Capability → CapMatch.t;
(** The attribute values a default constructed
    [detail::ResolvableImpl] reports. *)
default_kind : Kind;
default_name : string;
default_edition : Edition;
default_arch : Arch
}.

(** [ResTraits<_Res>::kind]: the kind tag attached to a resolvable
    subtype. *)
Class ResTraits `{Externals} (Res : Type) := ResTraits_kind : Kind.
Global Arguments ResTraits_kind {_} Res {_}.

(** A binary predicate functor type [_Compare]: it can be default
    constructed and applied to two values of [T]. *)
Class Compare (C T : Type) := {
  Compare_ctor : C;
  Compare_call : C → T → T → bool
}.

(** Modelled from the spec: [CompareByEQ<T>] comes from a header that is
    not part of the sources at hand; it is the stateless comparator
    "equals". *)
Inductive CompareByEQ (T : Type) : Set := CompareByEQ_ctor.
Global Arguments CompareByEQ_ctor {T}.

#[global] Instance CompareByEQ_Compare `{Equals T} : Compare (CompareByEQ T) T :=
  {| Compare_ctor := CompareByEQ_ctor;
     Compare_call := λ _ lhs rhs, equals lhs rhs |}.

(** ** Memory *)

Definition loc := positive.

(** A pointer into the free store: null or an address. *)
Inductive pointer : Set := null | addr (l : loc).

#[global] Instance pointer_eq_dec : EqDecision pointer.
Proof. solve_decision. Defined.

(** A read-only smart pointer such as [ResObject::constPtr].  The object
    behind it has no mutator in the code at hand, so the handle is
    represented by the object it refers to; [nullptr] is the empty
    handle. *)
Inductive constPtr (A : Type) := nullptr | pointer_to (obj : A).
Global Arguments nullptr {A}.
Global Arguments pointer_to {A} obj.

Module detail.
Section detail.
Context `{Externals}.

(** Modelled from the spec: [zypp/detail/ResolvableImpl.h] is not part
    of the sources at hand.  The implementation object holds the four
    identity attributes kind, name, edition and architecture.  The name
    type [ResName] is text, compared with a [std::string] by "exact,
    case-sensitive string equality" and written to a stream as it is. *)
Record ResolvableImpl := Build_ResolvableImpl
  { kind : Kind;
    name : string;
    edition : Edition;
    arch : Arch }.

(** The default constructor of [detail::ResolvableImpl]. *)
Definition ResolvableImpl_ctor : ResolvableImpl :=
  {| kind := default_kind;
     name := default_name;
     edition := default_edition;
     arch := default_arch |}.

(** [detail::ResolvableImplPtr]. *)
Definition ResolvableImplPtr := pointer.
End detail.
End detail.

Section Memory.
Context `{Externals}.

(** The part of the free store the code reads: the implementation
    objects behind [Resolvable] handles and the status cells behind pool
    items. *)
Record Memory := Build_Memory
  { impls : gmap loc detail.ResolvableImpl;
    statuses : gmap loc ResStatus.t }.

(** The two ways a run can leave the behaviour the language defines:
    it dereferences a null pointer, or it follows a pointer that has no
    live object behind it.  The model ends the run at that point; it
    records that the dereference takes place and says nothing about what
    an execution does with it. *)
Inductive Fault : Set := NullDereference | DanglingReference.

Inductive Outcome (A : Type) :=
  | Returns (a : A) (m : Memory)
  | Faults (f : Fault).

Definition M (A : Type) : Type := Memory → Outcome A.

Definition M_ret {A} (a : A) : M A := λ m, Returns A a m.

Definition M_bind {A B} (f : A → M B) (c : M A) : M B :=
  λ m, match c m with
       | Returns _ a m' => f a m'
       | Faults _ e => Faults B e
       end.

Definition fault {A} (e : Fault) : M A := λ _, Faults A e.

(** [*p] for an implementation pointer. *)
Definition deref_impl (p : detail.ResolvableImplPtr) : M detail.ResolvableImpl :=
  λ m, match p with
       | null => Faults _ NullDereference
       | addr l =>
           match impls m !! l with
           | Some impl => Returns _ impl m
           | None => Faults _ DanglingReference
           end
       end.

(** [new detail::ResolvableImpl]: a default constructed object is
    stored at an address that was not in use. *)
Definition new_ResolvableImpl : M detail.ResolvableImplPtr :=
  λ m, let l := fresh (dom (impls m)) in
       Returns _ (addr l)
         {| impls := <[l := detail.ResolvableImpl_ctor]> (impls m);
            statuses := statuses m |}.

(** Reading the status cell of a pool item. *)
Definition load_status (l : loc) : M ResStatus.t :=
  λ m, match statuses m !! l with
       | Some st => Returns _ st m
       | None => Faults _ DanglingReference
       end.

(** [*p] / [p->] for a read-only smart pointer. *)
Definition deref {A} (p : constPtr A) : M A :=
  match p with
  | nullptr => fault NullDereference
  | pointer_to obj => M_ret obj
  end.
End Memory.

Global Arguments Returns {_ _} a m.
Global Arguments Faults {_ _} f.

#[global] Instance M_MRet `{Externals} : MRet M := @M_ret _.
#[global] Instance M_MBind `{Externals} : MBind M := @M_bind _.

(** ** zypp/Resolvable.cc *)

Module Resolvable.
Section Resolvable.
Context `{Externals}.

Record t := Build { _pimpl : detail.ResolvableImplPtr }.

(** [Resolvable::Resolvable()] *)
Definition ctor : M t :=
  p ← new_ResolvableImpl; mret {| _pimpl := p |}.

(** [Resolvable::Resolvable( detail::ResolvableImplPtr impl_r )] *)
Definition ctor_impl (impl_r : detail.ResolvableImplPtr) : M t :=
  mret {| _pimpl := impl_r |}.

(** [Resolvable::kind()] *)
Definition kind (this : t) : M Kind :=
  impl ← deref_impl (_pimpl this); mret (detail.kind impl).

(** [Resolvable::name()] *)
Definition name (this : t) : M string :=
  impl ← deref_impl (_pimpl this); mret (detail.name impl).

(** [Resolvable::edition()] *)
Definition edition (this : t) : M Edition :=
  impl ← deref_impl (_pimpl this); mret (detail.edition impl).

(** [Resolvable::arch()] *)
Definition arch (this : t) : M Arch :=
  impl ← deref_impl (_pimpl this); mret (detail.arch impl).

(** A [std::ostream] is represented by the text written to it. *)
Definition ostream := string.

Definition put (str : ostream) (s : string) : ostream := str +:+ s.

(** [std::ostream & operator<<( std::ostream & str, const Resolvable & obj )] *)
Definition operator_out (str : ostream) (obj : t) : M ostream :=
  let str := put str "[" in
  k ← kind obj;
  let str := put str (Kind_asString k) in
  let str := put str "]" in
  n ← name obj;
  let str := put str n in
  let str := put str "-" in
  e ← edition obj;
  let str := put str (Edition_asString e) in
  let str := put str "." in
  a ← arch obj;
  let str := put str (Arch_asString a) in
  mret str.
End Resolvable.
End Resolvable.

(** ** zypp/SrcPackage.cc *)

Module SrcPackage.
(** The class itself is declared in [zypp/SrcPackage.h]; the
    constructor passes [TraitsType::kind], that is
    [ResTraits<SrcPackage>::kind], to its base class.  The forwarded
    accessors [archivesize], [diskusage] and [location] play no role
    for the filters. *)
Inductive t : Set := Build.

Definition TraitsType_kind `{Externals} `{!ResTraits t} : Kind :=
  ResTraits_kind t.
End SrcPackage.

(** ** Pool items and capability pairs *)

Module ResObject.
(** [ResObject] derives from [Resolvable]; the filters use nothing but
    the inherited accessors. *)
Definition t `{Externals} : Type := Resolvable.t.

(** [ResObject::constPtr] *)
Definition constPtr `{Externals} : Type := constPtr t.
End ResObject.

Module PoolItem.
Section PoolItem.
Context `{Externals}.

(** Modelled from the spec: [zypp/PoolItem.h] is not part of the sources
    at hand.  A pool entry "wraps a ResolvableRecord plus mutable status
    flags"; the flags live in a cell of the memory, shared by all copies
    of the item. *)
Record t := Build
  { resolvable : ResObject.constPtr;
    status_cell : loc }.

(** [p.status()], read through the returned reference. *)
Definition status (this : t) : M ResStatus.t := load_status (status_cell this).

(** [p.operator->()] *)
Definition arrow (this : t) : ResObject.constPtr := resolvable this.
End PoolItem.
End PoolItem.

Module CapAndItem.
Section CapAndItem.
Context `{Externals}.

(** Modelled from the spec: [zypp/CapAndItem.h] is not part of the
    sources at hand.  A capability pair is "(capability, record)". *)
Record t := Build
  { cap : Capability;
    item : PoolItem.t }.
End CapAndItem.
End CapAndItem.

(** ** zypp/ResFilters.h, namespace resfilter *)

Module ByKind.
Section ByKind.
Context `{Externals}.

Record t := ctor { _kind : Kind }.

Definition call (self : t) (p : ResObject.constPtr) : M bool :=
  obj ← deref p;
  k ← Resolvable.kind obj;
  mret (bool_decide (k = _kind self)).
End ByKind.
End ByKind.

(** [template<class _Res> ByKind byKind()] *)
Definition byKind `{Externals} (_Res : Type) `{!ResTraits _Res} : ByKind.t :=
  ByKind.ctor (ResTraits_kind _Res).

Module ByName.
Section ByName.
Context `{Externals}.

Record t := ctor { _name : string }.

Definition call (self : t) (p : ResObject.constPtr) : M bool :=
  obj ← deref p;
  n ← Resolvable.name obj;
  mret (String.eqb n (_name self)).
End ByName.
End ByName.

(** [BySource] compares [p->source()] with a [Source_Ref]; both the
    accessor and the reference type are declared outside the three files
    and no property below depends on them, so the functor is left out. *)

Module ByEdition.
Section ByEdition.
Context `{Externals}.

(** The template's default argument for [_Compare]. *)
Definition default_Compare : Type := CompareByEQ Edition.

Context {_Compare : Type} `{!Compare _Compare Edition}.

Record t := ctor { _edition : Edition; _cmp : _Compare }.

Definition call (self : t) (p : ResObject.constPtr) : M bool :=
  obj ← deref p;
  e ← Resolvable.edition obj;
  mret (Compare_call (_cmp self) e (_edition self)).
End ByEdition.
Global Arguments t {_} _Compare.
End ByEdition.

(** [byEdition( edition_r, cmp_r )] *)
Definition byEdition `{Externals} {_Compare : Type}
    (edition_r : Edition) (cmp_r : _Compare) : ByEdition.t _Compare :=
  ByEdition.ctor edition_r cmp_r.

(** [byEdition<_Compare>( edition_r )] *)
Definition byEdition1 `{Externals} (_Compare : Type) `{!Compare _Compare Edition}
    (edition_r : Edition) : ByEdition.t _Compare :=
  byEdition edition_r (Compare_ctor : _Compare).

Module ByArch.
Section ByArch.
Context `{Externals}.

(** The template's default argument for [_Compare]. *)
Definition default_Compare : Type := CompareByEQ Arch.

Context {_Compare : Type} `{!Compare _Compare Arch}.

Record t := ctor { _arch : Arch; _cmp : _Compare }.

Definition call (self : t) (p : ResObject.constPtr) : M bool :=
  obj ← deref p;
  a ← Resolvable.arch obj;
  mret (Compare_call (_cmp self) a (_arch self)).
End ByArch.
Global Arguments t {_} _Compare.
End ByArch.

(** [byArch( arch_r, cmp_r )] *)
Definition byArch `{Externals} {_Compare : Type}
    (arch_r : Arch) (cmp_r : _Compare) : ByArch.t _Compare :=
  ByArch.ctor arch_r cmp_r.

(** [byArch<_Compare>( arch_r )] *)
Definition byArch1 `{Externals} (_Compare : Type) `{!Compare _Compare Arch}
    (arch_r : Arch) : ByArch.t _Compare :=
  byArch arch_r (Compare_ctor : _Compare).

Module ByInstalled.
Section ByInstalled.
Context `{Externals}.

Inductive t : Set := ctor.

Definition call (self : t) (p : PoolItem.t) : M bool :=
  st ← PoolItem.status p; mret (ResStatus.isInstalled st).
End ByInstalled.
End ByInstalled.

Module ByUninstalled.
Section ByUninstalled.
Context `{Externals}.

Inductive t : Set := ctor.

Definition call (self : t) (p : PoolItem.t) : M bool :=
  st ← PoolItem.status p; mret (ResStatus.isUninstalled st).
End ByUninstalled.
End ByUninstalled.

Module ByTransact.
Section ByTransact.
Context `{Externals}.

Inductive t : Set := ctor.

Definition call (self : t) (p : PoolItem.t) : M bool :=
  st ← PoolItem.status p; mret (ResStatus.transacts st).
End ByTransact.
End ByTransact.

Module ByLock.
Section ByLock.
Context `{Externals}.

Inductive t : Set := ctor.

Definition call (self : t) (p : PoolItem.t) : M bool :=
  st ← PoolItem.status p; mret (ResStatus.isLocked st).
End ByLock.
End ByLock.

Module ByCapabilityIndex.
Section ByCapabilityIndex.
Context `{Externals}.

Inductive t : Set := ctor.

Definition call (self : t) (cai : CapAndItem.t) : M bool :=
  mret true.
End ByCapabilityIndex.
End ByCapabilityIndex.

Module ByCapMatch.
Section ByCapMatch.
Context `{Externals}.

Record t := ctor { _cap : Capability }.

Definition call (self : t) (cai : CapAndItem.t) : M bool :=
  mret (bool_decide
          (Capability_matches (CapAndItem.cap cai) (_cap self) = CapMatch.yes)).
End ByCapMatch.
End ByCapMatch.

Module ByCaIUninstalled.
Section ByCaIUninstalled.
Context `{Externals}.

Inductive t : Set := ctor.

Definition call (self : t) (cai : CapAndItem.t) : M bool :=
  st ← PoolItem.status (CapAndItem.item cai);
  mret (ResStatus.isUninstalled st).
End ByCaIUninstalled.
End ByCaIUninstalled.

Module ByCaIInstalled.
Section ByCaIInstalled.
Context `{Externals}.

Inductive t : Set := ctor.

Definition call (self : t) (cai : CapAndItem.t) : M bool :=
  st ← PoolItem.status (CapAndItem.item cai);
  mret (ResStatus.isInstalled st).
End ByCaIInstalled.
End ByCaIInstalled.

Module ByCaITransact.
Section ByCaITransact.
Context `{Externals}.

Inductive t : Set := ctor.

Definition call (self : t) (cai : CapAndItem.t) : M bool :=
  st ← PoolItem.status (CapAndItem.item cai);
  mret (ResStatus.transacts st).
End ByCaITransact.
End ByCaITransact.

Module ByCaINotTransact.
Section ByCaINotTransact.
Context `{Externals}.

Inductive t : Set := ctor.

Definition call (self : t) (cai : CapAndItem.t) : M bool :=
  st ← PoolItem.status (CapAndItem.item cai);
  mret (negb (ResStatus.transacts st)).
End ByCaINotTransact.
End ByCaINotTransact.

Module ByCaIKind.
Section ByCaIKind.
Context `{Externals}.

Record t := ctor { _kind : Kind }.

Definition call (self : t) (cai : CapAndItem.t) : M bool :=
  obj ← deref (PoolItem.arrow (CapAndItem.item cai));
  k ← Resolvable.kind obj;
  mret (bool_decide (k = _kind self)).
End ByCaIKind.
End ByCaIKind.

(** [template<class _Res> ByCaIKind byCaIKind()] *)
Definition byCaIKind `{Externals} (_Res : Type) `{!ResTraits _Res} : ByCaIKind.t :=
  ByCaIKind.ctor (ResTraits_kind _Res).

(** ** Vocabulary of the statements *)

Section Liveness.
Context `{Externals}.

(** Lifting a function over an outcome. *)
Definition Outcome_map {A B} (f : A → B) (o : Outcome A) : Outcome B :=
  match o with
  | Returns a m => Returns (f a) m
  | Faults e => Faults e
  end.

(** The implementation object a [Resolvable] refers to, if its pointer is
    neither null nor dangling. *)
Definition impl_of (m : Memory) (obj : Resolvable.t) : option detail.ResolvableImpl :=
  match Resolvable._pimpl obj with
  | null => None
  | addr l => impls m !! l
  end.

(** The record behind a [ResObject::constPtr], if the handle is not empty
    and the object it refers to has a live implementation. *)
Definition record_of (m : Memory) (p : ResObject.constPtr) : option detail.ResolvableImpl :=
  match p with
  | nullptr => None
  | pointer_to obj => impl_of m obj
  end.

(** The status currently stored for a pool item. *)
Definition status_of (m : Memory) (p : PoolItem.t) : option ResStatus.t :=
  statuses m !! PoolItem.status_cell p.
End Liveness.

(** Letter case of names: [to_lower] maps the letters A..Z to a..z and
    keeps every other character. *)
Definition ascii_to_lower (c : Ascii.ascii) : Ascii.ascii :=
  let n := Ascii.N_of_ascii c in
  if ((65 <=? n) && (n <=? 90))%N then Ascii.ascii_of_N (n + 32) else c.

Fixpoint to_lower (s : string) : string :=
  match s with
  | EmptyString => EmptyString
  | String c s' => String (ascii_to_lower c) (to_lower s')
  end.

Definition differ_only_in_case (a b : string) : Prop :=
  a ≠ b ∧ to_lower a = to_lower b.

(** ** A concrete instance of the external vocabulary

    Kinds, editions, architectures and capabilities are strings; a
    capability matches itself, may match a capability it is a prefix of,
    and matches nothing else. *)

Module Example.
Definition externals : Externals :=
  {| Kind := string;
     Kind_asString := λ k, k;
     Edition := string;
     Edition_equals := String.eqb;
     Edition_asString := λ e, e;
     Arch := string;
     Arch_equals := String.eqb;
     Arch_asString := λ a, a;
     Capability := string;
     Capability_matches := λ lhs rhs,
       if String.eqb lhs rhs then CapMatch.yes
       else if String.prefix lhs rhs then CapMatch.maybe
       else CapMatch.no;
     default_kind := "";
     default_name := "";
     default_edition := "";
     default_arch := "" |}.

(** "Greater than" on editions of the instance: by length, then nothing. *)
Inductive CompareByLonger : Set := CompareByLonger_ctor.

Definition CompareByLonger_Compare : Compare CompareByLonger string :=
  {| Compare_ctor := CompareByLonger_ctor;
     Compare_call := λ _ lhs rhs, bool_decide (String.length rhs < String.length lhs) |}.

Definition SrcPackage_traits : @ResTraits externals SrcPackage.t := "srcpackage".

Definition kernel : @detail.ResolvableImpl externals :=
  @detail.Build_ResolvableImpl externals "package" "kernel" "2.6.16-1" "i586".

Definition installed : ResStatus.t :=
  {| ResStatus.isInstalled := true;
     ResStatus.isUninstalled := false;
     ResStatus.transacts := false;
     ResStatus.isLocked := true |}.

(** A memory holding one implementation object and one status cell. *)
Definition memory : @Memory externals :=
  @Build_Memory externals {[ 1%positive := kernel ]} {[ 1%positive := installed ]}.

Definition kernel_obj : Resolvable.t :=
  {| Resolvable._pimpl := addr 1%positive |}.

Definition kernel_ptr : @ResObject.constPtr externals := pointer_to kernel_obj.

Definition kernel_item : @PoolItem.t externals :=
  @PoolItem.Build externals kernel_ptr 1%positive.

Definition kernel_pair : @CapAndItem.t externals :=
  @CapAndItem.Build externals "kernel" kernel_item.
End Example.

(** How the model ends a run that follows an implementation pointer with
    no live object behind it. *)
Definition dead_impl_fault (p : detail.ResolvableImplPtr) : Fault :=
  match p with
  | null => NullDereference
  | addr _ => DanglingReference
  end.

(** A handle that leads to a null pointer: it is empty itself, or the
    object it refers to has a null implementation pointer. *)
Definition null_handle `{Externals} (p : ResObject.constPtr) : bool :=
  match p with
  | nullptr => true
  | pointer_to obj => bool_decide (Resolvable._pimpl obj = null)
  end.

(** * Properties *)

(** Unfolding one monadic step. *)
Ltac step_M :=
  unfold mbind, mret, M_MBind, M_MRet, M_bind, M_ret, fault; simpl.

Section Accessors.
Context `{Externals}.

Lemma deref_impl_live m obj r :
  impl_of m obj = Some r →
  deref_impl (Resolvable._pimpl obj) m = Returns r m.
Proof.
  unfold impl_of, deref_impl.
  destruct (Resolvable._pimpl obj) as [|l]; [discriminate|].
  intros ->. reflexivity.
Qed.

Lemma kind_live m obj r :
  impl_of m obj = Some r → Resolvable.kind obj m = Returns (detail.kind r) m.
Proof.
  intros Hr. unfold Resolvable.kind. step_M.
  rewrite (deref_impl_live _ _ _ Hr). reflexivity.
Qed.

Lemma name_live m obj r :
  impl_of m obj = Some r → Resolvable.name obj m = Returns (detail.name r) m.
Proof.
  intros Hr. unfold Resolvable.name. step_M.
  rewrite (deref_impl_live _ _ _ Hr). reflexivity.
Qed.

Lemma edition_live m obj r :
  impl_of m obj = Some r → Resolvable.edition obj m = Returns (detail.edition r) m.
Proof.
  intros Hr. unfold Resolvable.edition. step_M.
  rewrite (deref_impl_live _ _ _ Hr). reflexivity.
Qed.

Lemma arch_live m obj r :
  impl_of m obj = Some r → Resolvable.arch obj m = Returns (detail.arch r) m.
Proof.
  intros Hr. unfold Resolvable.arch. step_M.
  rewrite (deref_impl_live _ _ _ Hr). reflexivity.
Qed.

(** An empty handle makes a filter fault before it looks at anything. *)
Lemma ByKind_call_nullptr self m :
  ByKind.call self nullptr m = Faults NullDereference.
Proof. reflexivity. Qed.

Lemma ByName_call_nullptr self m :
  ByName.call self nullptr m = Faults NullDereference.
Proof. reflexivity. Qed.

(** A handle with a record behind it is a non-empty handle to an object
    whose implementation is live. *)
Lemma record_of_inv m p r :
  record_of m p = Some r → ∃ obj, p = pointer_to obj ∧ impl_of m obj = Some r.
Proof.
  destruct p as [|obj]; simpl; [discriminate|]. eauto.
Qed.

(** Sequencing after a computation that returns without touching the
    memory. *)
Lemma bind_returns {A B} (c : M A) (f : A → M B) m a :
  c m = Returns a m → (c ≫= f) m = f a m.
Proof. intros Hc. step_M. rewrite Hc. reflexivity. Qed.

(** Dereferencing a null implementation pointer is the only way an
    accessor can fault on a null dereference. *)
Lemma deref_impl_null_iff p m :
  deref_impl p m = Faults NullDereference ↔ p = null.
Proof.
  unfold deref_impl. destruct p as [|l]; [tauto|].
  destruct (impls m !! l); split; discriminate.
Qed.

Lemma accessor_null_iff {A} (get : detail.ResolvableImpl → A) p m :
  (deref_impl p ≫= λ impl, mret (get impl)) m = Faults NullDereference ↔ p = null.
Proof.
  rewrite <- (deref_impl_null_iff p m). step_M.
  destruct (deref_impl p m); split; congruence.
Qed.
End Accessors.

Section AttributeFilters.
Context `{Externals}.

(** C1.  For a handle [p] to a record [r] and every kind [k],
    [ByKind(k)(p)] returns [true] exactly when the kind of [r] equals
    [k]; in particular [ByKind(r.kind)(p)] returns [true].  The memory is
    left as it was. *)
Theorem ByKind_call_iff m p r k :
  record_of m p = Some r →
  ByKind.call (ByKind.ctor k) p m = Returns (bool_decide (detail.kind r = k)) m
  ∧ (ByKind.call (ByKind.ctor k) p m = Returns true m ↔ detail.kind r = k)
  ∧ ByKind.call (ByKind.ctor (detail.kind r)) p m = Returns true m.
Proof.
  intros Hp. destruct (record_of_inv _ _ _ Hp) as (obj & -> & Hr).
  assert (Hcall : ∀ k', ByKind.call (ByKind.ctor k') (pointer_to obj) m
                        = Returns (bool_decide (detail.kind r = k')) m).
  { intros k'. unfold ByKind.call. step_M. rewrite (kind_live _ _ _ Hr).
    reflexivity. }
  split; [apply Hcall|]. split.
  - rewrite Hcall. split.
    + intros [= Hb]. by apply bool_decide_eq_true in Hb.
    + intros Hk. by rewrite bool_decide_true.
  - rewrite Hcall. by rewrite bool_decide_true.
Qed.

(** C5.  For a handle [p] to a record [r] and every string [n],
    [ByName(n)(p)] returns [true] exactly when the name of [r] and [n]
    are the same string; names that differ only in letter case are
    rejected. *)
Theorem ByName_call_iff m p r n :
  record_of m p = Some r →
  ByName.call (ByName.ctor n) p m = Returns (bool_decide (detail.name r = n)) m
  ∧ (ByName.call (ByName.ctor n) p m = Returns true m ↔ detail.name r = n)
  ∧ (differ_only_in_case (detail.name r) n →
     ByName.call (ByName.ctor n) p m = Returns false m).
Proof.
  intros Hp. destruct (record_of_inv _ _ _ Hp) as (obj & -> & Hr).
  assert (Hcall : ByName.call (ByName.ctor n) (pointer_to obj) m
                  = Returns (bool_decide (detail.name r = n)) m).
  { unfold ByName.call. step_M. rewrite (name_live _ _ _ Hr). simpl.
    f_equal. destruct (String.eqb_spec (detail.name r) n) as [Heq|Hne].
    - by rewrite bool_decide_true.
    - by rewrite bool_decide_false. }
  rewrite Hcall. split; [reflexivity|]. split.
  - split.
    + intros [= Hb]. by apply bool_decide_eq_true in Hb.
    + intros Hn. by rewrite bool_decide_true.
  - intros [Hne _]. by rewrite bool_decide_false.
Qed.

(** C9.  For every resolvable subtype [_Res], the functor built by
    [byKind<_Res>()] is [ByKind(ResTraits<_Res>::kind)] and gives the same
    outcome on every handle; likewise [byCaIKind<_Res>()] and
    [ByCaIKind(ResTraits<_Res>::kind)] on every capability pair. *)
Theorem byKind_factory (_Res : Type) `{!ResTraits _Res} p cai m :
  byKind _Res = ByKind.ctor (ResTraits_kind _Res)
  ∧ ByKind.call (byKind _Res) p m
    = ByKind.call (ByKind.ctor (ResTraits_kind _Res)) p m
  ∧ byCaIKind _Res = ByCaIKind.ctor (ResTraits_kind _Res)
  ∧ ByCaIKind.call (byCaIKind _Res) cai m
    = ByCaIKind.call (ByCaIKind.ctor (ResTraits_kind _Res)) cai m.
Proof. unfold byKind, byCaIKind. done. Qed.
End AttributeFilters.


Section StatusFilters.
Context `{Externals}.

Lemma status_live m p st :
  status_of m p = Some st → PoolItem.status p m = Returns st m.
Proof.
  unfold status_of, PoolItem.status, load_status. intros ->. reflexivity.
Qed.

(** C6.  For a pool item [p] whose status cell holds [st], the filters
    [ByInstalled], [ByUninstalled], [ByTransact] and [ByLock] return the
    flags [isInstalled], [isUninstalled], [transacts] and [isLocked] of
    [st], and each of them hands back the memory it was given, so the
    status of [p] is still [st]. *)
Theorem status_filters_read_only m p st :
  status_of m p = Some st →
  ByInstalled.call ByInstalled.ctor p m = Returns (ResStatus.isInstalled st) m
  ∧ ByUninstalled.call ByUninstalled.ctor p m = Returns (ResStatus.isUninstalled st) m
  ∧ ByTransact.call ByTransact.ctor p m = Returns (ResStatus.transacts st) m
  ∧ ByLock.call ByLock.ctor p m = Returns (ResStatus.isLocked st) m.
Proof.
  intros Hst.
  unfold ByInstalled.call, ByUninstalled.call, ByTransact.call, ByLock.call.
  rewrite !(bind_returns _ _ _ _ (status_live _ _ _ Hst)).
  repeat split.
Qed.

(** The two transaction filters on pairs agree up to negation on every
    pair and memory, faults included. *)
Lemma ByCaINotTransact_call_map cai m :
  ByCaINotTransact.call ByCaINotTransact.ctor cai m
  = Outcome_map negb (ByCaITransact.call ByCaITransact.ctor cai m).
Proof.
  unfold ByCaINotTransact.call, ByCaITransact.call. step_M.
  destruct (PoolItem.status (CapAndItem.item cai) m); reflexivity.
Qed.

(** C7.  For a capability pair [cai] whose item has status [st],
    [ByCaINotTransact(cai)] returns the negation of what
    [ByCaITransact(cai)] returns: it returns [true] exactly when [st]
    reports no pending transaction. *)
Theorem ByCaINotTransact_negates m cai st :
  status_of m (CapAndItem.item cai) = Some st →
  ByCaITransact.call ByCaITransact.ctor cai m = Returns (ResStatus.transacts st) m
  ∧ ByCaINotTransact.call ByCaINotTransact.ctor cai m
    = Returns (negb (ResStatus.transacts st)) m
  ∧ (ByCaINotTransact.call ByCaINotTransact.ctor cai m = Returns true m
     ↔ ResStatus.transacts st = false).
Proof.
  intros Hst.
  assert (Htr : ByCaITransact.call ByCaITransact.ctor cai m
                = Returns (ResStatus.transacts st) m).
  { unfold ByCaITransact.call.
    by rewrite (bind_returns _ _ _ _ (status_live _ _ _ Hst)). }
  rewrite ByCaINotTransact_call_map, Htr. simpl.
  split; [reflexivity|]. split; [reflexivity|].
  destruct (ResStatus.transacts st); simpl; split; congruence.
Qed.
End StatusFilters.

Section CapabilityFilters.
Context `{Externals}.

(** C2.  For every capability [c], pair [cai] and memory,
    [ByCapMatch(c)(cai)] returns [true] when the pair's capability
    answers [yes] to the match against [c], and [false] when it answers
    [no] or [maybe]. *)
Theorem ByCapMatch_call_yes c cai m :
  ByCapMatch.call (ByCapMatch.ctor c) cai m
  = Returns (match Capability_matches (CapAndItem.cap cai) c with
             | CapMatch.yes => true
             | CapMatch.no => false
             | CapMatch.maybe => false
             end) m
  ∧ (ByCapMatch.call (ByCapMatch.ctor c) cai m = Returns true m
     ↔ Capability_matches (CapAndItem.cap cai) c = CapMatch.yes).
Proof.
  unfold ByCapMatch.call. step_M.
  destruct (Capability_matches (CapAndItem.cap cai) c); simpl;
    repeat split; congruence.
Qed.

(** C4.  [ByCapabilityIndex] returns [true] on every capability pair and
    in every memory: it looks at neither and cannot fault. *)
Theorem ByCapabilityIndex_call_true self cai m :
  ByCapabilityIndex.call self cai m = Returns true m.
Proof. reflexivity. Qed.
End CapabilityFilters.

Section ResolvableClass.
Context `{Externals}.

(** Writing two pieces one after the other is writing their
    concatenation. *)
Lemma put_put (str s1 s2 : string) :
  Resolvable.put (Resolvable.put str s1) s2 = Resolvable.put str (s1 +:+ s2).
Proof.
  unfold Resolvable.put. induction str as [|c str IH].
  - reflexivity.
  - exact (f_equal (String c) IH).
Qed.

(** C8.  For a resolvable [obj] whose implementation is the record [r],
    the output operator appends to the stream the text
    [[kind]name-edition.arch]: an opening bracket, the kind, a closing
    bracket, the name, a hyphen, the edition, a dot and the architecture.
    On an empty stream the result is exactly that text. *)
Theorem operator_out_format m obj r str :
  impl_of m obj = Some r →
  Resolvable.operator_out str obj m
  = Returns (str +:+ "[" +:+ Kind_asString (detail.kind r) +:+ "]"
                 +:+ detail.name r +:+ "-"
                 +:+ Edition_asString (detail.edition r) +:+ "."
                 +:+ Arch_asString (detail.arch r)) m
  ∧ Resolvable.operator_out "" obj m
    = Returns ("[" +:+ Kind_asString (detail.kind r) +:+ "]"
                   +:+ detail.name r +:+ "-"
                   +:+ Edition_asString (detail.edition r) +:+ "."
                   +:+ Arch_asString (detail.arch r)) m.
Proof.
  intros Hr.
  assert (Hout : ∀ s, Resolvable.operator_out s obj m
    = Returns (s +:+ "[" +:+ Kind_asString (detail.kind r) +:+ "]"
                 +:+ detail.name r +:+ "-"
                 +:+ Edition_asString (detail.edition r) +:+ "."
                 +:+ Arch_asString (detail.arch r)) m).
  { intros s. unfold Resolvable.operator_out.
    rewrite (bind_returns _ _ _ _ (kind_live _ _ _ Hr)).
    rewrite (bind_returns _ _ _ _ (name_live _ _ _ Hr)).
    rewrite (bind_returns _ _ _ _ (edition_live _ _ _ Hr)).
    rewrite (bind_returns _ _ _ _ (arch_live _ _ _ Hr)).
    cbv zeta. unfold mret, M_MRet, M_ret.
    rewrite !put_put. reflexivity. }
  split; [apply Hout|]. rewrite Hout. reflexivity.
Qed.

(** The implementation object the default constructor allocates. *)
Lemma new_ResolvableImpl_fresh m :
  ∃ l, new_ResolvableImpl m
       = Returns (addr l)
           {| impls := <[l := detail.ResolvableImpl_ctor]> (impls m);
              statuses := statuses m |}
       ∧ impls m !! l = None.
Proof.
  exists (fresh (dom (impls m))). split; [reflexivity|].
  apply not_elem_of_dom, is_fresh.
Qed.

(** C10.  The default constructor returns, in every memory, a resolvable
    whose implementation pointer is a non-null address that was not in
    use before and now holds a default constructed implementation; every
    other cell is as before.  On that resolvable the four accessors
    return, and in no memory whatsoever do they fault on a null
    dereference.  The constructor taking an implementation pointer stores
    the pointer as given, null included, and touches nothing; on its
    result each accessor faults on a null dereference exactly when the
    given pointer is null. *)
Theorem Resolvable_ctor_pimpl m :
  (∃ l m',
     Resolvable.ctor m = Returns {| Resolvable._pimpl := addr l |} m'
     ∧ impls m !! l = None
     ∧ impls m' !! l = Some detail.ResolvableImpl_ctor
     ∧ (∀ l', l' ≠ l → impls m' !! l' = impls m !! l')
     ∧ statuses m' = statuses m
     ∧ Resolvable.kind {| Resolvable._pimpl := addr l |} m' = Returns default_kind m'
     ∧ Resolvable.name {| Resolvable._pimpl := addr l |} m' = Returns default_name m'
     ∧ Resolvable.edition {| Resolvable._pimpl := addr l |} m' = Returns default_edition m'
     ∧ Resolvable.arch {| Resolvable._pimpl := addr l |} m' = Returns default_arch m'
     ∧ (∀ m'',
          Resolvable.kind {| Resolvable._pimpl := addr l |} m'' ≠ Faults NullDereference
          ∧ Resolvable.name {| Resolvable._pimpl := addr l |} m'' ≠ Faults NullDereference
          ∧ Resolvable.edition {| Resolvable._pimpl := addr l |} m'' ≠ Faults NullDereference
          ∧ Resolvable.arch {| Resolvable._pimpl := addr l |} m'' ≠ Faults NullDereference))
  ∧ (∀ impl_r,
       Resolvable.ctor_impl impl_r m = Returns {| Resolvable._pimpl := impl_r |} m
       ∧ (Resolvable.kind {| Resolvable._pimpl := impl_r |} m = Faults NullDereference
          ↔ impl_r = null)
       ∧ (Resolvable.name {| Resolvable._pimpl := impl_r |} m = Faults NullDereference
          ↔ impl_r = null)
       ∧ (Resolvable.edition {| Resolvable._pimpl := impl_r |} m = Faults NullDereference
          ↔ impl_r = null)
       ∧ (Resolvable.arch {| Resolvable._pimpl := impl_r |} m = Faults NullDereference
          ↔ impl_r = null)).
Proof.
  split.
  - destruct (new_ResolvableImpl_fresh m) as (l & Hnew & Hfresh).
    set (m' := {| impls := <[l := detail.ResolvableImpl_ctor]> (impls m);
                  statuses := statuses m |}) in *.
    assert (Hlive : impl_of m' {| Resolvable._pimpl := addr l |}
                    = Some detail.ResolvableImpl_ctor).
    { unfold impl_of. simpl. apply lookup_insert_eq. }
    exists l, m'. split.
    { unfold Resolvable.ctor, mbind, M_MBind, M_bind. rewrite Hnew.
      reflexivity. }
    split; [exact Hfresh|]. split; [exact Hlive|]. split.
    { intros l' Hne. simpl. by apply lookup_insert_ne. }
    split; [reflexivity|].
    split; [exact (kind_live _ _ _ Hlive)|].
    split; [exact (name_live _ _ _ Hlive)|].
    split; [exact (edition_live _ _ _ Hlive)|].
    split; [exact (arch_live _ _ _ Hlive)|].
    intros m''.
    repeat split; intros Hnull; by apply accessor_null_iff in Hnull.
  - intros impl_r. split; [reflexivity|].
    repeat split; try (by intros Hnull; apply accessor_null_iff in Hnull);
      intros ->; reflexivity.
Qed.
End ResolvableClass.

(** * The properties at work on the example instance *)

(** C1 on the kernel package: the handle refers to the record, and
    selecting by kind "package" accepts it. *)
Lemma ByKind_call_iff_witness :
  @record_of Example.externals Example.memory Example.kernel_ptr = Some Example.kernel
  ∧ @ByKind.call Example.externals (@ByKind.ctor Example.externals "package")
      Example.kernel_ptr Example.memory
    = Returns true Example.memory
  ∧ @ByKind.call Example.externals (@ByKind.ctor Example.externals "pattern")
      Example.kernel_ptr Example.memory
    = Returns false Example.memory.
Proof.
  assert (Hp : @record_of Example.externals Example.memory Example.kernel_ptr
               = Some Example.kernel) by reflexivity.
  split; [exact Hp|]. split.
  - destruct (@ByKind_call_iff Example.externals Example.memory
                Example.kernel_ptr Example.kernel "package" Hp) as (_ & _ & Hself).
    exact Hself.
  - destruct (@ByKind_call_iff Example.externals Example.memory
                Example.kernel_ptr Example.kernel "pattern" Hp) as (Hcall & _ & _).
    exact Hcall.
Defined.

(** C5 on the kernel package: "kernel" is accepted, "Kernel" differs
    only in letter case and is rejected. *)
Lemma ByName_call_iff_witness :
  @record_of Example.externals Example.memory Example.kernel_ptr = Some Example.kernel
  ∧ differ_only_in_case "kernel" "Kernel"
  ∧ @ByName.call Example.externals (ByName.ctor "kernel")
      Example.kernel_ptr Example.memory
    = Returns true Example.memory
  ∧ @ByName.call Example.externals (ByName.ctor "Kernel")
      Example.kernel_ptr Example.memory
    = Returns false Example.memory.
Proof.
  assert (Hp : @record_of Example.externals Example.memory Example.kernel_ptr
               = Some Example.kernel) by reflexivity.
  assert (Hcase : differ_only_in_case "kernel" "Kernel").
  { split; [discriminate|reflexivity]. }
  split; [exact Hp|]. split; [exact Hcase|]. split.
  - destruct (@ByName_call_iff Example.externals Example.memory
                Example.kernel_ptr Example.kernel "kernel" Hp) as (_ & Hiff & _).
    apply Hiff. reflexivity.
  - destruct (@ByName_call_iff Example.externals Example.memory
                Example.kernel_ptr Example.kernel "Kernel" Hp) as (_ & _ & Hdiff).
    exact (Hdiff Hcase).
Defined.

(** C6 on the kernel item: installed and locked, neither uninstalled nor
    part of a transaction. *)
Lemma status_filters_read_only_witness :
  @status_of Example.externals Example.memory Example.kernel_item
    = Some Example.installed
  ∧ @ByInstalled.call Example.externals ByInstalled.ctor Example.kernel_item
      Example.memory = Returns true Example.memory
  ∧ @ByUninstalled.call Example.externals ByUninstalled.ctor Example.kernel_item
      Example.memory = Returns false Example.memory
  ∧ @ByTransact.call Example.externals ByTransact.ctor Example.kernel_item
      Example.memory = Returns false Example.memory
  ∧ @ByLock.call Example.externals ByLock.ctor Example.kernel_item
      Example.memory = Returns true Example.memory.
Proof.
  assert (Hst : @status_of Example.externals Example.memory Example.kernel_item
                = Some Example.installed) by reflexivity.
  split; [exact Hst|].
  exact (@status_filters_read_only Example.externals Example.memory
           Example.kernel_item Example.installed Hst).
Defined.

(** C7 on the kernel pair: no transaction is pending, so
    [ByCaINotTransact] accepts the pair. *)
Lemma ByCaINotTransact_negates_witness :
  @status_of Example.externals Example.memory
      (@CapAndItem.item Example.externals Example.kernel_pair)
    = Some Example.installed
  ∧ @ByCaITransact.call Example.externals ByCaITransact.ctor Example.kernel_pair
      Example.memory = Returns false Example.memory
  ∧ @ByCaINotTransact.call Example.externals ByCaINotTransact.ctor
      Example.kernel_pair Example.memory = Returns true Example.memory.
Proof.
  assert (Hst : @status_of Example.externals Example.memory
                  (@CapAndItem.item Example.externals Example.kernel_pair)
                = Some Example.installed) by reflexivity.
  destruct (@ByCaINotTransact_negates Example.externals Example.memory
              Example.kernel_pair Example.installed Hst) as (Htr & Hnot & _).
  split; [exact Hst|]. split; [exact Htr | exact Hnot].
Defined.

(** C8 on the kernel package. *)
Lemma operator_out_format_witness :
  @impl_of Example.externals Example.memory Example.kernel_obj = Some Example.kernel
  ∧ @Resolvable.operator_out Example.externals "" Example.kernel_obj Example.memory
    = Returns "[package]kernel-2.6.16-1.i586" Example.memory.
Proof.
  assert (Hr : @impl_of Example.externals Example.memory Example.kernel_obj
               = Some Example.kernel) by reflexivity.
  destruct (@operator_out_format Example.externals Example.memory
              Example.kernel_obj Example.kernel "" Hr) as (_ & Hout).
  split; [exact Hr | exact Hout].
Defined.

(** C2 on the kernel pair: its capability "kernel" answers [yes] to
    "kernel", [maybe] to "kernel-source" and [no] to "glibc"; only the
    first is accepted. *)
Lemma ByCapMatch_call_yes_witness :
  @ByCapMatch.call Example.externals (@ByCapMatch.ctor Example.externals "kernel")
      Example.kernel_pair Example.memory = Returns true Example.memory
  ∧ @ByCapMatch.call Example.externals (@ByCapMatch.ctor Example.externals "kernel-source")
      Example.kernel_pair Example.memory = Returns false Example.memory
  ∧ @ByCapMatch.call Example.externals (@ByCapMatch.ctor Example.externals "glibc")
      Example.kernel_pair Example.memory = Returns false Example.memory.
Proof.
  split; [|split].
  - exact (proj1 (@ByCapMatch_call_yes Example.externals "kernel"
                    Example.kernel_pair Example.memory)).
  - exact (proj1 (@ByCapMatch_call_yes Example.externals "kernel-source"
                    Example.kernel_pair Example.memory)).
  - exact (proj1 (@ByCapMatch_call_yes Example.externals "glibc"
                    Example.kernel_pair Example.memory)).
Defined.

(** C4 on the kernel pair. *)
Lemma ByCapabilityIndex_call_true_witness :
  @ByCapabilityIndex.call Example.externals ByCapabilityIndex.ctor
      Example.kernel_pair Example.memory = Returns true Example.memory.
Proof.
  exact (@ByCapabilityIndex_call_true Example.externals ByCapabilityIndex.ctor
           Example.kernel_pair Example.memory).
Defined.

(** C9 at the source package subtype. *)
Lemma byKind_factory_witness :
  @byKind Example.externals SrcPackage.t Example.SrcPackage_traits
    = @ByKind.ctor Example.externals "srcpackage"
  ∧ @ByKind.call Example.externals
      (@byKind Example.externals SrcPackage.t Example.SrcPackage_traits)
      Example.kernel_ptr Example.memory
    = Returns false Example.memory
  ∧ @ByCaIKind.call Example.externals
      (@byCaIKind Example.externals SrcPackage.t Example.SrcPackage_traits)
      Example.kernel_pair Example.memory
    = Returns false Example.memory.
Proof.
  destruct (@byKind_factory Example.externals SrcPackage.t
              Example.SrcPackage_traits Example.kernel_ptr Example.kernel_pair
              Example.memory) as (Hk & Hcall & _ & Hcai).
  split; [exact Hk|]. split.
  - rewrite Hcall. reflexivity.
  - rewrite Hcai. reflexivity.
Defined.

(** C10 in the example memory: address 1 is taken, the default
    constructor allocates another one; a resolvable built from the null
    pointer faults in [kind]. *)
Lemma Resolvable_ctor_pimpl_witness :
  (∃ l m', @Resolvable.ctor Example.externals Example.memory
             = Returns {| Resolvable._pimpl := addr l |} m'
           ∧ l ≠ 1%positive
           ∧ @Resolvable.name Example.externals {| Resolvable._pimpl := addr l |} m'
             = Returns "" m')
  ∧ @Resolvable.kind Example.externals {| Resolvable._pimpl := null |} Example.memory
    = Faults NullDereference.
Proof.
  destruct (@Resolvable_ctor_pimpl Example.externals Example.memory)
    as ((l & m' & Hctor & Hfresh & _ & _ & _ & _ & Hname & _) & Himpl).
  split.
  - exists l, m'. split; [exact Hctor|]. split; [|exact Hname].
    intros ->. discriminate Hfresh.
  - destruct (Himpl null) as (_ & Hkind & _). apply Hkind. reflexivity.
Defined.

(** * Further properties of the three files *)

Section DeadHandles.
Context `{Externals}.

Lemma bind_faults {A B} (c : M A) (f : A → M B) m e :
  c m = Faults e → (c ≫= f) m = Faults e.
Proof. intros Hc. unfold mbind, M_MBind, M_bind. rewrite Hc. reflexivity. Qed.

Lemma deref_impl_dead m obj :
  impl_of m obj = None →
  deref_impl (Resolvable._pimpl obj) m
  = Faults (dead_impl_fault (Resolvable._pimpl obj)).
Proof.
  unfold impl_of, deref_impl.
  destruct (Resolvable._pimpl obj) as [|l]; [reflexivity|].
  intros ->. reflexivity.
Qed.

Lemma kind_dead m obj :
  impl_of m obj = None →
  Resolvable.kind obj m = Faults (dead_impl_fault (Resolvable._pimpl obj)).
Proof. intros Hd. apply bind_faults, deref_impl_dead, Hd. Qed.

Lemma name_dead m obj :
  impl_of m obj = None →
  Resolvable.name obj m = Faults (dead_impl_fault (Resolvable._pimpl obj)).
Proof. intros Hd. apply bind_faults, deref_impl_dead, Hd. Qed.

Lemma edition_dead m obj :
  impl_of m obj = None →
  Resolvable.edition obj m = Faults (dead_impl_fault (Resolvable._pimpl obj)).
Proof. intros Hd. apply bind_faults, deref_impl_dead, Hd. Qed.

Lemma arch_dead m obj :
  impl_of m obj = None →
  Resolvable.arch obj m = Faults (dead_impl_fault (Resolvable._pimpl obj)).
Proof. intros Hd. apply bind_faults, deref_impl_dead, Hd. Qed.

(** X4.  When the handle is empty, or the object it refers to has a null
    implementation pointer, evaluating [ByKind], [ByName], [ByEdition] or
    [ByArch] dereferences a null pointer and yields no verdict, and so
    does [ByCaIKind] on every pair whose item carries that handle: none
    of them tests for null before use. *)
Theorem attribute_filters_null_handle (CE CA : Type)
    `{!Compare CE Edition} `{!Compare CA Arch}
    m p (byk : ByKind.t) (byn : ByName.t) (bye : ByEdition.t CE)
    (bya : ByArch.t CA) (bycik : ByCaIKind.t) c cell :
  null_handle p = true →
  ByKind.call byk p m = Faults NullDereference
  ∧ ByName.call byn p m = Faults NullDereference
  ∧ ByEdition.call bye p m = Faults NullDereference
  ∧ ByArch.call bya p m = Faults NullDereference
  ∧ ByCaIKind.call bycik
      {| CapAndItem.cap := c;
         CapAndItem.item := {| PoolItem.resolvable := p;
                               PoolItem.status_cell := cell |} |} m
    = Faults NullDereference.
Proof.
  intros Hnull. destruct p as [|obj]; [repeat split|].
  simpl in Hnull. apply bool_decide_eq_true in Hnull.
  assert (Hd : impl_of m obj = None).
  { unfold impl_of. rewrite Hnull. reflexivity. }
  unfold ByKind.call, ByName.call, ByEdition.call, ByArch.call, ByCaIKind.call.
  simpl. step_M.
  rewrite (kind_dead _ _ Hd), (name_dead _ _ Hd), (edition_dead _ _ Hd),
    (arch_dead _ _ Hd), Hnull.
  repeat split.
Qed.
End DeadHandles.

Section MoreFilters.
Context `{Externals}.

(** X5.  For a handle [p] to a record [r], an architecture [a] and a
    comparator [cmp] of any functor type, [ByArch(a, cmp)(p)] returns
    [cmp(r.arch, a)]: the record's architecture is the left operand.  At
    the comparator type the template defaults to, [CompareByEQ<Arch>],
    the one-argument factory gives a predicate that returns
    [equals(r.arch, a)]. *)
Theorem ByArch_call_cmp (_Compare : Type) `{!Compare _Compare Arch}
    m p r a (cmp : _Compare) :
  record_of m p = Some r →
  ByArch.call (ByArch.ctor a cmp) p m
    = Returns (Compare_call cmp (detail.arch r) a) m
  ∧ ByArch.call (byArch a cmp) p m
    = Returns (Compare_call cmp (detail.arch r) a) m
  ∧ ByArch.call (byArch1 _Compare a) p m
    = Returns (Compare_call (Compare_ctor : _Compare) (detail.arch r) a) m
  ∧ ByArch.call (byArch1 ByArch.default_Compare a) p m
    = Returns (equals (detail.arch r) a) m.
Proof.
  intros Hp. destruct (record_of_inv _ _ _ Hp) as (obj & -> & Hr).
  unfold byArch1, byArch, ByArch.call. step_M.
  rewrite (arch_live _ _ _ Hr). repeat split.
Qed.

(** X13.  For a handle [p] to a record [r], an edition [e] and a
    comparator [cmp] of any functor type, [ByEdition(e, cmp)(p)] returns
    [cmp(r.edition, e)]: the record's edition is the left operand.
    [byEdition(e, cmp)] builds the same predicate, [byEdition<C>(e)] the
    one with a default constructed [C], and at the comparator type
    [CompareByEQ<Edition>] that predicate returns [equals(r.edition, e)]. *)
Theorem ByEdition_call_operands (_Compare : Type) `{!Compare _Compare Edition}
    m p r e (cmp : _Compare) :
  record_of m p = Some r →
  ByEdition.call (ByEdition.ctor e cmp) p m
    = Returns (Compare_call cmp (detail.edition r) e) m
  ∧ ByEdition.call (byEdition e cmp) p m
    = Returns (Compare_call cmp (detail.edition r) e) m
  ∧ ByEdition.call (byEdition1 _Compare e) p m
    = Returns (Compare_call (Compare_ctor : _Compare) (detail.edition r) e) m
  ∧ ByEdition.call (byEdition1 (CompareByEQ Edition) e) p m
    = Returns (equals (detail.edition r) e) m.
Proof.
  intros Hp. destruct (record_of_inv _ _ _ Hp) as (obj & -> & Hr).
  unfold byEdition1, byEdition, ByEdition.call. step_M.
  rewrite (edition_live _ _ _ Hr). repeat split.
Qed.

(** [ByCaIKind] is [ByKind] applied to the handle carried by the pair's
    item, faults included. *)
Lemma ByCaIKind_call_ByKind k cai m :
  ByCaIKind.call (ByCaIKind.ctor k) cai m
  = ByKind.call (ByKind.ctor k) (PoolItem.arrow (CapAndItem.item cai)) m.
Proof. reflexivity. Qed.

(** X6.  For a capability pair whose item refers to a record [r],
    [ByCaIKind(k)] returns [true] exactly when the kind of [r] equals
    [k].  The pair's capability plays no role: the verdict is the one
    [ByKind(k)] gives on the item's handle. *)
Theorem ByCaIKind_call_iff m cai r k :
  record_of m (PoolItem.resolvable (CapAndItem.item cai)) = Some r →
  ByCaIKind.call (ByCaIKind.ctor k) cai m
    = Returns (bool_decide (detail.kind r = k)) m
  ∧ (ByCaIKind.call (ByCaIKind.ctor k) cai m = Returns true m
     ↔ detail.kind r = k)
  ∧ ByCaIKind.call (ByCaIKind.ctor k) cai m
    = ByKind.call (ByKind.ctor k) (PoolItem.resolvable (CapAndItem.item cai)) m.
Proof.
  intros Hp. destruct (record_of_inv _ _ _ Hp) as (obj & Hobj & Hr).
  assert (Hcall : ByCaIKind.call (ByCaIKind.ctor k) cai m
                  = Returns (bool_decide (detail.kind r = k)) m).
  { rewrite ByCaIKind_call_ByKind. unfold PoolItem.arrow. rewrite Hobj.
    unfold ByKind.call. step_M. rewrite (kind_live _ _ _ Hr). reflexivity. }
  split; [exact Hcall|]. split; [|apply ByCaIKind_call_ByKind].
  rewrite Hcall. split.
  - intros [= Hb]. by apply bool_decide_eq_true in Hb.
  - intros Hk. by rewrite bool_decide_true.
Qed.

(** X7.  For a capability pair whose item has status [st],
    [ByCaIInstalled] and [ByCaIUninstalled] return the flags
    [isInstalled] and [isUninstalled] of [st]; they and [ByCaITransact]
    give the verdict of [ByInstalled], [ByUninstalled] and [ByTransact]
    on the pair's item. *)
Theorem ByCaI_status_filters m cai st :
  status_of m (CapAndItem.item cai) = Some st →
  ByCaIInstalled.call ByCaIInstalled.ctor cai m
    = Returns (ResStatus.isInstalled st) m
  ∧ ByCaIUninstalled.call ByCaIUninstalled.ctor cai m
    = Returns (ResStatus.isUninstalled st) m
  ∧ ByCaIInstalled.call ByCaIInstalled.ctor cai m
    = ByInstalled.call ByInstalled.ctor (CapAndItem.item cai) m
  ∧ ByCaIUninstalled.call ByCaIUninstalled.ctor cai m
    = ByUninstalled.call ByUninstalled.ctor (CapAndItem.item cai) m
  ∧ ByCaITransact.call ByCaITransact.ctor cai m
    = ByTransact.call ByTransact.ctor (CapAndItem.item cai) m.
Proof.
  intros Hst.
  unfold ByCaIInstalled.call, ByCaIUninstalled.call, ByCaITransact.call,
    ByInstalled.call, ByUninstalled.call, ByTransact.call.
  rewrite !(bind_returns _ _ _ _ (status_live _ _ _ Hst)).
  repeat split.
Qed.

(** What a verdict [true] of [ByKind] says about the handle. *)
Lemma ByKind_call_true_inv k p m m' :
  ByKind.call (ByKind.ctor k) p m = Returns true m' →
  ∃ r, record_of m p = Some r ∧ detail.kind r = k.
Proof.
  destruct p as [|obj]; [discriminate|]. simpl.
  destruct (impl_of m obj) as [r|] eqn:Hr.
  - unfold ByKind.call. step_M. rewrite (kind_live _ _ _ Hr). simpl.
    intros [= Hb _]. exists r. split; [reflexivity|].
    by apply bool_decide_eq_true in Hb.
  - unfold ByKind.call. step_M. rewrite (kind_dead _ _ Hr). discriminate.
Qed.

Lemma ByName_call_true_inv n p m m' :
  ByName.call (ByName.ctor n) p m = Returns true m' →
  ∃ r, record_of m p = Some r ∧ detail.name r = n.
Proof.
  destruct p as [|obj]; [discriminate|]. simpl.
  destruct (impl_of m obj) as [r|] eqn:Hr.
  - unfold ByName.call. step_M. rewrite (name_live _ _ _ Hr). simpl.
    intros [= Hb _]. exists r. split; [reflexivity|].
    by apply String.eqb_eq in Hb.
  - unfold ByName.call. step_M. rewrite (name_dead _ _ Hr). discriminate.
Qed.

(** X8.  A handle accepted by [ByKind(k1)] and by [ByKind(k2)] in the
    same memory forces [k1 = k2]: filters for distinct kinds select
    disjoint sets of records. *)
Theorem ByKind_exclusive m p k1 k2 m1 m2 :
  ByKind.call (ByKind.ctor k1) p m = Returns true m1 →
  ByKind.call (ByKind.ctor k2) p m = Returns true m2 →
  k1 = k2.
Proof.
  intros H1 H2.
  destruct (ByKind_call_true_inv _ _ _ _ H1) as (r1 & Hr1 & <-).
  destruct (ByKind_call_true_inv _ _ _ _ H2) as (r2 & Hr2 & <-).
  congruence.
Qed.

(** X9.  A handle accepted by [ByName(n1)] and by [ByName(n2)] in the
    same memory forces [n1 = n2]: filters for distinct names select
    disjoint sets of records. *)
Theorem ByName_exclusive m p n1 n2 m1 m2 :
  ByName.call (ByName.ctor n1) p m = Returns true m1 →
  ByName.call (ByName.ctor n2) p m = Returns true m2 →
  n1 = n2.
Proof.
  intros H1 H2.
  destruct (ByName_call_true_inv _ _ _ _ H1) as (r1 & Hr1 & <-).
  destruct (ByName_call_true_inv _ _ _ _ H2) as (r2 & Hr2 & <-).
  congruence.
Qed.
End MoreFilters.

Section Construction.
Context `{Externals}.

(** The default constructor, run. *)
Lemma Resolvable_ctor_run m :
  Resolvable.ctor m
  = Returns {| Resolvable._pimpl := addr (fresh (dom (impls m))) |}
      {| impls := <[fresh (dom (impls m)) := detail.ResolvableImpl_ctor]> (impls m);
         statuses := statuses m |}.
Proof. reflexivity. Qed.

Lemma Resolvable_ctor_new_live m obj m' :
  Resolvable.ctor m = Returns obj m' →
  impl_of m' obj = Some detail.ResolvableImpl_ctor.
Proof.
  rewrite Resolvable_ctor_run. intros [= <- <-].
  unfold impl_of. simpl. apply lookup_insert_eq.
Qed.

Lemma Resolvable_ctor_keeps_live m obj m' obj0 r :
  Resolvable.ctor m = Returns obj m' →
  impl_of m obj0 = Some r →
  impl_of m' obj0 = Some r ∧ Resolvable._pimpl obj0 ≠ Resolvable._pimpl obj.
Proof.
  rewrite Resolvable_ctor_run. intros [= <- <-].
  unfold impl_of. simpl.
  destruct (Resolvable._pimpl obj0) as [|l0]; [discriminate|].
  intros Hl0.
  assert (Hne : fresh (dom (impls m)) ≠ l0).
  { intros <-.
    pose proof (is_fresh (dom (impls m))) as Hfresh.
    apply not_elem_of_dom in Hfresh. congruence. }
  split.
  - rewrite lookup_insert_ne; [exact Hl0 | exact Hne].
  - congruence.
Qed.

(** X10.  Default constructing a resolvable disturbs nothing that was
    there: a handle that referred to a record [r] still does and is not a
    handle to the new object, [ByKind] gives on it the verdict it gave
    before, and every pool item keeps its status.  On the new object
    [ByKind(k)] returns [true] exactly for the kind of a default
    constructed implementation. *)
Theorem Resolvable_ctor_frame m obj m' p r k :
  Resolvable.ctor m = Returns obj m' →
  record_of m p = Some r →
  record_of m' p = Some r
  ∧ p ≠ pointer_to obj
  ∧ ByKind.call (ByKind.ctor k) p m'
    = Returns (bool_decide (detail.kind r = k)) m'
  ∧ ByKind.call (ByKind.ctor k) (pointer_to obj) m'
    = Returns (bool_decide (default_kind = k)) m'
  ∧ (∀ item, status_of m' item = status_of m item).
Proof.
  intros Hctor Hp. destruct (record_of_inv _ _ _ Hp) as (obj0 & -> & Hr).
  destruct (Resolvable_ctor_keeps_live _ _ _ _ _ Hctor Hr) as (Hr' & Hne).
  pose proof (Resolvable_ctor_new_live _ _ _ Hctor) as Hnew.
  split; [exact Hr'|]. split; [congruence|]. split; [|split].
  - unfold ByKind.call. step_M. rewrite (kind_live _ _ _ Hr'). reflexivity.
  - unfold ByKind.call. step_M. rewrite (kind_live _ _ _ Hnew). reflexivity.
  - intros item. revert Hctor. rewrite Resolvable_ctor_run.
    intros [= _ <-]. reflexivity.
Qed.

(** X11.  Two default constructions in a row return two resolvables that
    do not share their implementation: the pointers differ and, in the
    final memory, each refers to a default constructed implementation of
    its own. *)
Theorem Resolvable_ctor_twice m :
  ∃ a b m'',
    (a ← Resolvable.ctor; b ← Resolvable.ctor; mret (a, b)) m
      = Returns (a, b) m''
    ∧ Resolvable._pimpl a ≠ Resolvable._pimpl b
    ∧ impl_of m'' a = Some detail.ResolvableImpl_ctor
    ∧ impl_of m'' b = Some detail.ResolvableImpl_ctor.
Proof.
  pose proof (Resolvable_ctor_run m) as Ha.
  set (a := {| Resolvable._pimpl := addr (fresh (dom (impls m))) |}) in *.
  set (m1 := {| impls := <[fresh (dom (impls m)) := detail.ResolvableImpl_ctor]> (impls m);
                statuses := statuses m |}) in *.
  pose proof (Resolvable_ctor_run m1) as Hb.
  set (b := {| Resolvable._pimpl := addr (fresh (dom (impls m1))) |}) in *.
  set (m2 := {| impls := <[fresh (dom (impls m1)) := detail.ResolvableImpl_ctor]> (impls m1);
                statuses := statuses m1 |}) in *.
  exists a, b, m2.
  pose proof (Resolvable_ctor_new_live _ _ _ Ha) as Hlive_a.
  destruct (Resolvable_ctor_keeps_live _ _ _ _ _ Hb Hlive_a) as (Hlive_a' & Hne).
  split.
  { unfold mbind, M_MBind, M_bind. rewrite Ha, Hb. reflexivity. }
  split; [exact Hne|]. split; [exact Hlive_a'|].
  exact (Resolvable_ctor_new_live _ _ _ Hb).
Qed.
End Construction.

(** * The further properties at work on the example instance *)

(** X5 on the kernel package: its architecture "i586" is longer than
    "x86", and equal to "i586". *)
Lemma ByArch_call_cmp_witness :
  @record_of Example.externals Example.memory Example.kernel_ptr = Some Example.kernel
  ∧ @ByArch.call Example.externals Example.CompareByLonger
      Example.CompareByLonger_Compare
      (@ByArch.ctor Example.externals _ "x86" Example.CompareByLonger_ctor)
      Example.kernel_ptr Example.memory
    = Returns true Example.memory
  ∧ @ByArch.call Example.externals _ _
      (@byArch1 Example.externals (@ByArch.default_Compare Example.externals) _ "i586")
      Example.kernel_ptr Example.memory
    = Returns true Example.memory.
Proof.
  assert (Hp : @record_of Example.externals Example.memory Example.kernel_ptr
               = Some Example.kernel) by reflexivity.
  destruct (@ByArch_call_cmp Example.externals Example.CompareByLonger
              Example.CompareByLonger_Compare Example.memory Example.kernel_ptr
              Example.kernel "x86" Example.CompareByLonger_ctor Hp)
    as (Hcmp & _ & _ & _).
  destruct (@ByArch_call_cmp Example.externals Example.CompareByLonger
              Example.CompareByLonger_Compare Example.memory Example.kernel_ptr
              Example.kernel "i586" Example.CompareByLonger_ctor Hp)
    as (_ & _ & _ & Hdefault).
  split; [exact Hp|]. split; [exact Hcmp | exact Hdefault].
Defined.

(** X6 on the kernel pair. *)
Lemma ByCaIKind_call_iff_witness :
  @record_of Example.externals Example.memory
      (@PoolItem.resolvable Example.externals
         (@CapAndItem.item Example.externals Example.kernel_pair))
    = Some Example.kernel
  ∧ @ByCaIKind.call Example.externals (@ByCaIKind.ctor Example.externals "package")
      Example.kernel_pair Example.memory
    = Returns true Example.memory
  ∧ @ByCaIKind.call Example.externals (@ByCaIKind.ctor Example.externals "pattern")
      Example.kernel_pair Example.memory
    = Returns false Example.memory.
Proof.
  assert (Hp : @record_of Example.externals Example.memory
                 (@PoolItem.resolvable Example.externals
                    (@CapAndItem.item Example.externals Example.kernel_pair))
               = Some Example.kernel) by reflexivity.
  split; [exact Hp|]. split.
  - destruct (@ByCaIKind_call_iff Example.externals Example.memory
                Example.kernel_pair Example.kernel "package" Hp) as (Hcall & _).
    exact Hcall.
  - destruct (@ByCaIKind_call_iff Example.externals Example.memory
                Example.kernel_pair Example.kernel "pattern" Hp) as (Hcall & _).
    exact Hcall.
Defined.

(** X7 on the kernel pair. *)
Lemma ByCaI_status_filters_witness :
  @status_of Example.externals Example.memory
      (@CapAndItem.item Example.externals Example.kernel_pair)
    = Some Example.installed
  ∧ @ByCaIInstalled.call Example.externals ByCaIInstalled.ctor
      Example.kernel_pair Example.memory = Returns true Example.memory
  ∧ @ByCaIUninstalled.call Example.externals ByCaIUninstalled.ctor
      Example.kernel_pair Example.memory = Returns false Example.memory.
Proof.
  assert (Hst : @status_of Example.externals Example.memory
                  (@CapAndItem.item Example.externals Example.kernel_pair)
                = Some Example.installed) by reflexivity.
  destruct (@ByCaI_status_filters Example.externals Example.memory
              Example.kernel_pair Example.installed Hst) as (Hin & Hun & _).
  split; [exact Hst|]. split; [exact Hin | exact Hun].
Defined.

(** X8 on the kernel handle: it is accepted for the kind "package", so a
    kind under which it is accepted as well is "package". *)
Lemma ByKind_exclusive_witness :
  @ByKind.call Example.externals (@ByKind.ctor Example.externals "package")
      Example.kernel_ptr Example.memory = Returns true Example.memory
  ∧ ∀ k : @Kind Example.externals,
      @ByKind.call Example.externals (@ByKind.ctor Example.externals k)
        Example.kernel_ptr Example.memory = Returns true Example.memory →
      ("package" : @Kind Example.externals) = k.
Proof.
  assert (Hk : @ByKind.call Example.externals
                 (@ByKind.ctor Example.externals "package")
                 Example.kernel_ptr Example.memory = Returns true Example.memory)
    by reflexivity.
  split; [exact Hk|].
  intros k Hk'.
  exact (@ByKind_exclusive Example.externals Example.memory Example.kernel_ptr
           "package" k Example.memory Example.memory Hk Hk').
Defined.

(** X9 on the kernel handle. *)
Lemma ByName_exclusive_witness :
  @ByName.call Example.externals (ByName.ctor "kernel")
      Example.kernel_ptr Example.memory = Returns true Example.memory
  ∧ ∀ n : string,
      @ByName.call Example.externals (ByName.ctor n)
        Example.kernel_ptr Example.memory = Returns true Example.memory →
      "kernel" = n.
Proof.
  assert (Hn : @ByName.call Example.externals (ByName.ctor "kernel")
                 Example.kernel_ptr Example.memory = Returns true Example.memory)
    by reflexivity.
  split; [exact Hn|].
  intros n Hn'.
  exact (@ByName_exclusive Example.externals Example.memory Example.kernel_ptr
           "kernel" n Example.memory Example.memory Hn Hn').
Defined.

(** X10 in the example memory: after a default construction the kernel
    handle still refers to the kernel record and is still accepted for
    the kind "package". *)
Lemma Resolvable_ctor_frame_witness :
  ∃ obj m',
    @Resolvable.ctor Example.externals Example.memory = Returns obj m'
    ∧ @record_of Example.externals Example.memory Example.kernel_ptr
      = Some Example.kernel
    ∧ @record_of Example.externals m' Example.kernel_ptr = Some Example.kernel
    ∧ Example.kernel_ptr ≠ pointer_to obj
    ∧ @ByKind.call Example.externals (@ByKind.ctor Example.externals "package")
        Example.kernel_ptr m'
      = Returns true m'.
Proof.
  eexists _, _.
  assert (Hp : @record_of Example.externals Example.memory Example.kernel_ptr
               = Some Example.kernel) by reflexivity.
  split; [reflexivity|]. split; [exact Hp|].
  destruct (@Resolvable_ctor_frame Example.externals Example.memory _ _
              Example.kernel_ptr Example.kernel "package" eq_refl Hp)
    as (Hp' & Hne & Hk & _).
  split; [exact Hp'|]. split; [exact Hne | exact Hk].
Defined.

(** X11 in the example memory. *)
Lemma Resolvable_ctor_twice_witness :
  ∃ a b m'',
    (a ← @Resolvable.ctor Example.externals;
     b ← @Resolvable.ctor Example.externals;
     mret (a, b)) Example.memory
      = Returns (a, b) m''
    ∧ Resolvable._pimpl a ≠ Resolvable._pimpl b.
Proof.
  destruct (@Resolvable_ctor_twice Example.externals Example.memory)
    as (a & b & m'' & Hrun & Hne & _).
  exists a, b, m''. split; [exact Hrun | exact Hne].
Defined.

(** X4 on the empty handle and on a handle to a resolvable built around
    the null pointer. *)
Lemma attribute_filters_null_handle_witness :
  @null_handle Example.externals nullptr = true
  ∧ @ByKind.call Example.externals (@ByKind.ctor Example.externals "package")
      nullptr Example.memory
    = Faults NullDereference
  ∧ @null_handle Example.externals (pointer_to {| Resolvable._pimpl := null |}) = true
  ∧ @ByName.call Example.externals (ByName.ctor "kernel")
      (pointer_to {| Resolvable._pimpl := null |}) Example.memory
    = Faults NullDereference.
Proof.
  assert (H1 : @null_handle Example.externals nullptr = true) by reflexivity.
  assert (H2 : @null_handle Example.externals
                 (pointer_to {| Resolvable._pimpl := null |}) = true)
    by reflexivity.
  destruct (@attribute_filters_null_handle Example.externals
              Example.CompareByLonger Example.CompareByLonger
              Example.CompareByLonger_Compare Example.CompareByLonger_Compare
              Example.memory nullptr
              (@ByKind.ctor Example.externals "package")
              (ByName.ctor "kernel")
              (@ByEdition.ctor Example.externals _ "2.6" Example.CompareByLonger_ctor)
              (@ByArch.ctor Example.externals _ "x86" Example.CompareByLonger_ctor)
              (@ByCaIKind.ctor Example.externals "package")
              ("kernel" : @Capability Example.externals) 1%positive H1)
    as (Hk & _).
  destruct (@attribute_filters_null_handle Example.externals
              Example.CompareByLonger Example.CompareByLonger
              Example.CompareByLonger_Compare Example.CompareByLonger_Compare
              Example.memory (pointer_to {| Resolvable._pimpl := null |})
              (@ByKind.ctor Example.externals "package")
              (ByName.ctor "kernel")
              (@ByEdition.ctor Example.externals _ "2.6" Example.CompareByLonger_ctor)
              (@ByArch.ctor Example.externals _ "x86" Example.CompareByLonger_ctor)
              (@ByCaIKind.ctor Example.externals "package")
              ("kernel" : @Capability Example.externals) 1%positive H2)
    as (_ & Hn & _).
  split; [exact H1|]. split; [exact Hk|]. split; [exact H2 | exact Hn].
Defined.

(** X13 on the kernel package: its edition "2.6.16-1" is longer than
    "2.6" and is not equal to it. *)
Lemma ByEdition_call_operands_witness :
  @record_of Example.externals Example.memory Example.kernel_ptr = Some Example.kernel
  ∧ @ByEdition.call Example.externals Example.CompareByLonger
      Example.CompareByLonger_Compare
      (@ByEdition.ctor Example.externals _ "2.6" Example.CompareByLonger_ctor)
      Example.kernel_ptr Example.memory
    = Returns true Example.memory
  ∧ @ByEdition.call Example.externals _ _
      (@byEdition1 Example.externals (CompareByEQ (@Edition Example.externals)) _ "2.6")
      Example.kernel_ptr Example.memory
    = Returns false Example.memory.
Proof.
  assert (Hp : @record_of Example.externals Example.memory Example.kernel_ptr
               = Some Example.kernel) by reflexivity.
  destruct (@ByEdition_call_operands Example.externals Example.CompareByLonger
              Example.CompareByLonger_Compare Example.memory Example.kernel_ptr
              Example.kernel "2.6" Example.CompareByLonger_ctor Hp)
    as (Hcmp & _ & _ & Heq).
  split; [exact Hp|]. split; [exact Hcmp | exact Heq].
Defined.
